(** * IPL dashboard: the aggregation pipeline of [app.py]

    The dashboard script loads two tables (matches and deliveries), narrows
    them by the selected season and computes a fixed set of aggregates.  This
    development embeds the tables as lists of records, the pandas primitives
    the script calls as list functions, and each script variable as a function
    of the variables it is computed from, under the name it has in the script.
    The chart and widget calls are not part of the model: every value handed
    to them is. *)

From Stdlib Require Import ZArith Floats.PrimFloat Numbers.Cyclic.Int63.Uint63.
From stdpp Require Import base decidable option list strings sorting numbers gmap.

Local Open Scope Z_scope.

(** ** Data model *)

(** A cell of a nullable column is [None] where pandas holds NaN.  The
    [result_margin] column holds whole numbers of runs or wickets (read as
    float64 only because some cells are empty); it is embedded as [option Z],
    whose order on the present values is the order of those floats. *)
Module Match.
Record t : Type := mk {
  id : Z;
  season : string;
  city : option string;
  venue : option string;
  date : option string;
  team1 : option string;
  team2 : option string;
  winner : option string;
  result : option string;
  result_margin : option Z;
  player_of_match : option string
}.
End Match.

Module Delivery.
Record t : Type := mk {
  match_id : Z;
  batter : option string;
  bowler : option string;
  batsman_runs : Z;
  total_runs : Z;
  dismissal_kind : option string;
  player_dismissed : option string
}.
End Delivery.

(** ** The pandas primitives used by the script *)

Module Pandas.
Section Series.
Context {A : Type} `{EqDecision A}.

(** [Series.unique()]: the distinct values in order of first appearance. *)
Fixpoint unique_acc (seen : list A) (l : list A) : list A :=
  match l with
  | [] => []
  | x :: l' =>
      if decide (x ∈ seen) then unique_acc seen l'
      else x :: unique_acc (x :: seen) l'
  end.

Definition unique (l : list A) : list A := unique_acc [] l.

(** [Series.dropna()]. *)
Definition dropna (l : list (option A)) : list A := omap (λ x, x) l.

(** [Series.nunique()] (nulls are not counted). *)
Definition nunique (l : list (option A)) : nat := length (unique (dropna l)).

(** [Series.isin(values)] at one cell.  For a nullable column the cell is an
    [option] and the values are wrapped in [Some]: NaN is in no such list. *)
Definition isin (x : A) (values : list A) : Prop := x ∈ values.

#[global] Instance isin_dec x values : Decision (isin x values).
Proof. unfold isin. apply _. Defined.

(** Number of cells equal to [x]. *)
Definition occurrences (x : A) (l : list A) : nat :=
  length (filter (λ y, y = x) l).

(** Descending order on the aggregate of an (index, value) entry. *)
Definition ge_count (p q : A * nat) : Prop := (q.2 ≤ p.2)%nat.
Definition ge_value (p q : A * Z) : Prop := q.2 ≤ p.2.

#[global] Instance ge_count_dec : RelDecision ge_count.
Proof. intros p q. unfold ge_count. apply _. Defined.
#[global] Instance ge_value_dec : RelDecision ge_value.
Proof. intros p q. unfold ge_value. apply _. Defined.

(** [Series.sort_values(ascending=False)] on a series of counts and on a
    series of integers.  pandas leaves the order among equal values to the
    sorting routine; the embedding keeps them in their original order. *)
Definition sort_counts_desc (s : list (A * nat)) : list (A * nat) :=
  merge_sort ge_count s.
Definition sort_values_desc (s : list (A * Z)) : list (A * Z) :=
  merge_sort ge_value s.

(** [Series.value_counts()]: nulls dropped, one entry per distinct value
    with the number of its occurrences, sorted by descending count. *)
Definition counts (l : list A) : list (A * nat) :=
  (λ x, (x, occurrences x l)) <$> unique l.
Definition value_counts (l : list (option A)) : list (A * nat) :=
  sort_counts_desc (counts (dropna l)).

(** [Series.get(key, default)] on an indexed series. *)
Fixpoint get {B : Type} (s : list (A * B)) (key : A) (default : B) : B :=
  match s with
  | [] => default
  | (k, v) :: s' => if decide (k = key) then v else get s' key default
  end.

(** [Series.head(n)] / [DataFrame.head(n)]. *)
Definition head {B : Type} (n : nat) (s : list B) : list B := take n s.
End Series.

(** int64 arithmetic: numpy sums an integer column in 64-bit two's
    complement and wraps silently. *)
Definition wrap_int64 (z : Z) : Z := (z + 2^63) `mod` 2^64 - 2^63.

Definition int64_sum (l : list Z) : Z :=
  foldl (λ acc x, wrap_int64 (acc + x)) 0 l.

(** The sum of a column in unbounded integers, for comparison. *)
Definition exact_sum (l : list Z) : Z := foldr Z.add 0 l.

Section GroupBy.
(** [df.groupby(key)[col].sum()]: rows with a null key are left out, the
    groups come sorted by key, each with the int64 sum of its rows. *)
Definition group_rows (k : string) (rows : list (option string * Z)) : list Z :=
  snd <$> filter (λ r, r.1 = Some k) rows.

Definition groupby_sum (rows : list (option string * Z)) : list (string * Z) :=
  (λ k, (k, int64_sum (group_rows k rows)))
    <$> merge_sort String.le (unique (dropna (fst <$> rows))).
End GroupBy.

(** Python's [sorted] on a list of strings: the order of the code points,
    which on UTF-8 text is the order of the bytes. *)
Definition sorted (l : list string) : list string := merge_sort String.le l.
End Pandas.

(** ** Numbers of the script

    [runs] is a numpy int64, [balls] a Python integer, and the strike rate
    is either a numpy float64 or the Python integer [0]. *)
Module Numpy.
Local Open Scope float_scope.

Inductive number : Type :=
| PyInt (z : Z)
| PyFloat (f : float).

(** Conversion of an int64 to float64 (round to nearest, exact below 2^53). *)
Definition float_of_int64 (z : Z) : float :=
  match z with
  | Z0 => 0
  | Zpos _ =>
      if decide (z < 2^63)%Z then of_uint63 (Uint63.of_Z z)
      else 9223372036854775808
  | Zneg p =>
      if decide (Zpos p < 2^63)%Z then - of_uint63 (Uint63.of_Z (Zpos p))
      else - 9223372036854775808
  end.

(** [a / b] on an int64 and an integer: both operands are converted to
    float64 and divided.  With a zero divisor numpy emits a RuntimeWarning
    and yields inf or nan; the embedding returns [None] there, so a result
    [Some q] is the quotient by a non-zero divisor. *)
Definition true_divide (a b : Z) : option float :=
  if decide (b = 0%Z) then None
  else Some (float_of_int64 a / float_of_int64 b).

(** [rint]: round to the nearest integer, halves to even.  Below 2^52 in
    magnitude this is what adding and subtracting 2^52 does under the
    default rounding mode; from 2^52 on every float64 is an integer. *)
Definition two52 : float := 4503599627370496.

Definition rint (x : float) : float :=
  if abs x <? two52 then
    if 0 <? x then (x + two52) - two52
    else if x <? 0 then - ((- x + two52) - two52)
    else x
  else x.

(** [round(x, 2)] on a float64: numpy scales by [10**2], applies [rint] and
    scales back. *)
Definition round2 (x : float) : float := rint (x * 100) / 100.
End Numpy.

(** ** The script *)

Import Pandas Numpy.

(** What a block of the page shows when it has no figures to show. *)
Inductive pvp_view : Type :=
| PvpWarning (msg : string)
| PvpMetrics (runs balls dismissals : Z) (strike_rate : option number)
             (fours sixes : nat).

Inductive h2h_view : Type :=
| H2HWarning (msg : string)
| H2HMetrics (t1_wins t2_wins ties : Z).

Inductive thriller_view : Type :=
| ThrillerInfo (msg : string)
| ThrillerMatch (thriller : Match.t).

(** Ascending order of [sort_values(by="result_margin")]: missing margins
    come last. *)
Definition na_last_le (a b : option Z) : Prop :=
  match a, b with
  | Some x, Some y => x ≤ y
  | _, None => True
  | None, Some _ => False
  end.

Definition margin_le (m1 m2 : Match.t) : Prop :=
  na_last_le (Match.result_margin m1) (Match.result_margin m2).

#[global] Instance na_last_le_dec : RelDecision na_last_le.
Proof. intros [x|] [y|]; simpl; apply _. Defined.

#[global] Instance margin_le_dec : RelDecision margin_le.
Proof. intros m1 m2. unfold margin_le. apply _. Defined.

(** Dismissal kinds that are not credited to the bowler (line 59). *)
Definition not_credited : list string :=
  ["run out"; "retired hurt"; "obstructing the field"].

(** Line 83, as a function of the two numbers it reads. *)
Definition strike_rate (runs balls : Z) : option number :=
  if decide (balls > 0) then
    q ← true_divide runs balls;
    Some (PyFloat (round2 (q * 100)%float))
  else Some (PyInt 0).

Section Script.
(** The two loaded tables and the sidebar selections. *)
Variable matches_df : list Match.t.
Variable deliveries_df : list Delivery.t.
Variable selected_season : string.
Variable selected_batsman selected_bowler : string.
Variable team1 team2 : string.

(** *** Sidebar (lines 22-36) *)

Definition all_seasons : list string :=
  sorted (unique (Match.season <$> matches_df)).

Definition season_matches : list Match.t :=
  filter (λ m, Match.season m = selected_season) matches_df.

Definition season_match_ids : list Z :=
  unique (Match.id <$> season_matches).

Definition season_deliveries : list Delivery.t :=
  filter (λ d, isin (Delivery.match_id d) season_match_ids) deliveries_df.

Definition batters : list string :=
  sorted (unique (dropna (Delivery.batter <$> season_deliveries))).

Definition bowlers : list string :=
  sorted (unique (dropna (Delivery.bowler <$> season_deliveries))).

Definition teams : list string :=
  sorted (unique (dropna (Match.team1 <$> matches_df))).

(** *** Season overview (lines 40-45) *)

Definition metric_matches : nat := length season_matches.
Definition metric_cities : nat := nunique (Match.city <$> season_matches).
Definition metric_teams : nat := nunique (Match.team1 <$> season_matches).
Definition metric_venues : nat := nunique (Match.venue <$> season_matches).

Definition winner_count : list (string * nat) :=
  value_counts (Match.winner <$> season_matches).

(** *** Top performers (lines 52-66) *)

Definition runs_by_batter : list (string * Z) :=
  sort_values_desc
    (groupby_sum ((λ d, (Delivery.batter d, Delivery.batsman_runs d))
                    <$> season_deliveries)).

Definition top_batsmen : list (string * Z) := head 5 runs_by_batter.

Definition wickets_df : list Delivery.t :=
  let wickets_df :=
    filter (λ d, Delivery.dismissal_kind d ≠ None) season_deliveries in
  filter (λ d, ¬ isin (Delivery.dismissal_kind d) (Some <$> not_credited))
         wickets_df.

Definition top_bowlers : list (string * nat) :=
  head 5 (value_counts (Delivery.bowler <$> wickets_df)).

Definition top_mom : list (string * nat) :=
  head 5 (value_counts (Match.player_of_match <$> season_matches)).

(** *** Player vs player (lines 74-91) *)

Definition pvp_df : list Delivery.t :=
  filter (λ d, Delivery.batter d = Some selected_batsman
               ∧ Delivery.bowler d = Some selected_bowler)
         season_deliveries.

Definition runs : Z := int64_sum (Delivery.batsman_runs <$> pvp_df).

Definition balls : Z := Z.of_nat (length pvp_df).

Definition dismissals : Z :=
  Z.of_nat
    (length (filter (λ d, Delivery.player_dismissed d = Some selected_batsman)
                    pvp_df)).

Definition boundaries : list (Z * nat) :=
  value_counts
    (Some <$> (Delivery.batsman_runs
                 <$> filter (λ d, isin (Delivery.batsman_runs d) [4; 6]) pvp_df)).

Definition player_vs_player : pvp_view :=
  if decide (pvp_df = []) then PvpWarning "No data for this matchup."
  else PvpMetrics runs balls dismissals (strike_rate runs balls)
                  (get boundaries 4 0%nat) (get boundaries 6 0%nat).

(** *** Head to head (lines 95-113) *)

Definition h2h_df : list Match.t :=
  filter (λ m, (Match.team1 m = Some team1 ∧ Match.team2 m = Some team2)
               ∨ (Match.team1 m = Some team2 ∧ Match.team2 m = Some team1))
         matches_df.

Definition total : Z := Z.of_nat (length h2h_df).

Definition t1_wins : Z :=
  Z.of_nat (length (filter (λ m, Match.winner m = Some team1) h2h_df)).

Definition t2_wins : Z :=
  Z.of_nat (length (filter (λ m, Match.winner m = Some team2) h2h_df)).

Definition ties : Z := total - t1_wins - t2_wins.

Definition head_to_head : h2h_view :=
  if decide (team1 ≠ team2) then H2HMetrics t1_wins t2_wins ties
  else H2HWarning "Choose two different teams.".

(** *** Thriller of the season (lines 117-128) *)

Definition thrillers : list Match.t :=
  merge_sort margin_le
    (filter (λ m, Match.result m = Some "normal") season_matches).

Definition thriller_of_the_season : thriller_view :=
  match thrillers with
  | thriller :: _ => ThrillerMatch thriller
  | [] => ThrillerInfo "No close match found for this season."
  end.

(** *** Batting and bowling leaders (lines 136-150) *)

(** Line 136 binds [top_batsmen] again, now to the first ten. *)
Definition top_batsmen_leaders : list (string * Z) := head 10 runs_by_batter.

Definition most_sixes : list (string * nat) :=
  head 10
    (value_counts
       (Delivery.batter
          <$> filter (λ d, Delivery.batsman_runs d = 6) season_deliveries)).

Definition top_wickets : list (string * nat) :=
  head 10 (value_counts (Delivery.bowler <$> wickets_df)).

Definition dot_balls : list Delivery.t :=
  filter (λ d, Delivery.total_runs d = 0) season_deliveries.

Definition dot_bowlers : list (string * nat) :=
  head 10 (value_counts (Delivery.bowler <$> dot_balls)).
End Script.

(** ** Notions of the specification *)

(** The head-to-head selection in the words of the specification: the two
    teams of the row are, as a set, the two selected teams. *)
Definition played_between (A B : string) (m : Match.t) : Prop :=
  ({[Match.team1 m; Match.team2 m]} : gset (option string))
  = {[Some A; Some B]}.

#[global] Instance played_between_dec A B m : Decision (played_between A B m).
Proof. unfold played_between. apply _. Defined.

(** The head-to-head record of the specification's glossary: the record
    over the matches of the filtered season only. *)
Definition head_to_head_in_season (M : list Match.t) (s A B : string) : h2h_view :=
  head_to_head (season_matches M s) A B.

(** A team takes part in a match as its first or as its second team. *)
Definition participates (M : list Match.t) (t : string) : Prop :=
  ∃ m, m ∈ M ∧ (Match.team1 m = Some t ∨ Match.team2 m = Some t).

(** A ranking of at most [n] entries in non-increasing order of aggregate:
    every entry's aggregate is at least that of every later entry. *)
Definition ranking {K V} (R : relation (K * V)) (n : nat) (s : list (K * V)) : Prop :=
  (length s ≤ n)%nat ∧ StronglySorted R s.

(** A delivery counts as a wicket of its bowler when its dismissal kind is
    present and is none of run out, retired hurt, obstructing the field. *)
Definition credited_to_bowler (d : Delivery.t) : Prop :=
  match Delivery.dismissal_kind d with
  | Some k =>
      k ≠ "run out" ∧ k ≠ "retired hurt" ∧ k ≠ "obstructing the field"
  | None => False
  end.

#[global] Instance credited_to_bowler_dec d : Decision (credited_to_bowler d).
Proof.
  unfold credited_to_bowler. destruct (Delivery.dismissal_kind d); apply _.
Defined.

(** Wickets of bowler [b] among the rows of a delivery table. *)
Definition wickets_of (b : string) (rows : list Delivery.t) : nat :=
  length (filter (λ d, Delivery.bowler d = Some b ∧ credited_to_bowler d) rows).

(** A delivery belongs to the selected season when its match is a match of
    that season. *)
Definition in_season (M : list Match.t) (s : string) (d : Delivery.t) : Prop :=
  Exists (λ m, Match.season m = s ∧ Match.id m = Delivery.match_id d) M.

(** [top] holds the largest entries of [full]: an entry of [full] left out
    of [top] ranks no higher than any entry of [top]. *)
Definition holds_largest {B} (R : relation B) (top full : list B) : Prop :=
  ∀ x y, x ∈ top → y ∈ full → y ∉ top → R x y.

(** ** Example tables *)

(** A match row with the columns the aggregates read; the others are empty. *)
Definition match_row (id : Z) (season team1 team2 : string)
    (winner : option string) (result : string) (margin : option Z) : Match.t :=
  Match.mk id season None None None (Some team1) (Some team2) winner
           (Some result) margin None.

(** A delivery row of match [id]. *)
Definition delivery_row (id : Z) (batter bowler : string) (runs : Z)
    (kind dismissed : option string) : Delivery.t :=
  Delivery.mk id (Some batter) (Some bowler) runs runs kind dismissed.

(** Two matches between A and B in 2019, one won by each, and a match of
    2020 in which B does not play. *)
Definition other_season_table : list Match.t :=
  [match_row 1 "2019" "A" "B" (Some "A") "normal" (Some 5);
   match_row 2 "2019" "B" "A" (Some "B") "normal" (Some 3);
   match_row 3 "2020" "A" "C" (Some "C") "normal" (Some 7)].

(** Two seasons of matches between A and B, and one match of C. *)
Definition rivalry_table : list Match.t :=
  [match_row 1 "2019" "A" "B" (Some "A") "normal" (Some 5);
   match_row 2 "2020" "B" "A" (Some "B") "normal" (Some 2);
   match_row 3 "2020" "A" "B" None "no result" None;
   match_row 4 "2020" "C" "A" (Some "C") "normal" (Some 9)].

(** One match; B is the second team of it and the first team of none. *)
Definition second_team_table : list Match.t :=
  [match_row 1 "2020" "A" "B" (Some "A") "normal" (Some 5)].

(** One match of season 2020 and two deliveries of batter A facing bowler B. *)
Definition scenario_matches : list Match.t :=
  [match_row 1 "2020" "X" "Y" (Some "X") "normal" (Some 3)].

Definition scenario_deliveries : list Delivery.t :=
  [delivery_row 1 "A" "B" 1 None None; delivery_row 1 "A" "B" 4 None None].

(** Three matches of season 2020 decided normally, by margins 5, 2 and 9,
    a tie, and a closer match of another season. *)
Definition margins_table : list Match.t :=
  [match_row 1 "2020" "A" "B" (Some "A") "normal" (Some 5);
   match_row 2 "2020" "C" "D" (Some "D") "normal" (Some 2);
   match_row 3 "2020" "A" "C" (Some "C") "normal" (Some 9);
   match_row 4 "2020" "B" "D" None "tie" None;
   match_row 5 "2019" "A" "D" (Some "A") "normal" (Some 1)].

(** Deliveries of match 1: bowler B takes two wickets and has a run out
    bowled, bowler D sees a batter retire hurt; and a wicket of B in a match
    of no listed season. *)
Definition wicket_deliveries : list Delivery.t :=
  [delivery_row 1 "A" "B" 0 (Some "bowled") (Some "A");
   delivery_row 1 "C" "B" 1 (Some "run out") (Some "C");
   delivery_row 1 "C" "B" 0 (Some "caught") (Some "C");
   delivery_row 1 "A" "D" 0 (Some "retired hurt") (Some "A");
   delivery_row 1 "A" "D" 0 None None;
   delivery_row 7 "A" "B" 0 (Some "bowled") (Some "A")].

(** ** Facts about the pandas primitives *)

Section SeriesFacts.
Context {A : Type} `{EqDecision A}.
Implicit Types (l : list A) (x : A).

Lemma elem_of_unique_acc seen l x :
  x ∈ unique_acc seen l ↔ x ∈ l ∧ x ∉ seen.
Proof.
  revert seen. induction l as [|y l IH]; intros seen; simpl.
  - split; [intros Hx | intros [Hx _]]; by apply elem_of_nil in Hx.
  - destruct (decide (y ∈ seen)) as [Hy|Hy].
    + rewrite IH, elem_of_cons. split; [tauto|].
      intros [[->|Hx] Hn]; [done | tauto].
    + rewrite !elem_of_cons, IH, elem_of_cons. split.
      * intros [->|[Hx Hn]]; [tauto|]. split; [tauto|]. intros Hs. tauto.
      * intros [[->|Hx] Hn]; [tauto|].
        destruct (decide (x = y)) as [->|Hne]; [tauto|]. right. tauto.
Qed.

Lemma NoDup_unique_acc seen l : NoDup (unique_acc seen l).
Proof.
  revert seen. induction l as [|y l IH]; intros seen; simpl.
  - constructor.
  - destruct (decide (y ∈ seen)); [apply IH|].
    constructor; [|apply IH].
    rewrite elem_of_unique_acc, elem_of_cons. tauto.
Qed.

Lemma elem_of_unique l x : x ∈ unique l ↔ x ∈ l.
Proof.
  unfold unique. rewrite elem_of_unique_acc. split; [tauto|].
  intros Hx. split; [done|]. apply not_elem_of_nil.
Qed.

Lemma NoDup_unique l : NoDup (unique l).
Proof. apply NoDup_unique_acc. Qed.

Lemma elem_of_dropna (c : list (option A)) x : x ∈ dropna c ↔ Some x ∈ c.
Proof.
  unfold dropna. rewrite list_elem_of_omap. split.
  - intros ([y|] & Hy & Heq); simplify_eq/=. done.
  - intros Hx. by exists (Some x).
Qed.

Lemma occurrences_dropna (c : list (option A)) x :
  occurrences x (dropna c) = length (filter (λ y, y = Some x) c).
Proof.
  unfold occurrences, dropna.
  induction c as [|[y|] c IH]; simpl; [done| |].
  - rewrite !filter_cons.
    destruct (decide (y = x)) as [->|Hne].
    + rewrite !decide_True by done. simpl. by rewrite <- IH.
    + rewrite !decide_False by congruence. done.
  - rewrite filter_cons, decide_False by done. done.
Qed.

Lemma occurrences_0 l x : x ∉ l → occurrences x l = 0%nat.
Proof.
  intros Hx. unfold occurrences.
  induction l as [|y l IH]; [done|].
  rewrite not_elem_of_cons in Hx. destruct Hx as [Hne Hx].
  rewrite filter_cons, decide_False by congruence. auto.
Qed.

Lemma occurrences_pos l x : x ∈ l → (0 < occurrences x l)%nat.
Proof.
  intros Hx. unfold occurrences.
  assert (Hin : x ∈ filter (λ y, y = x) l) by (by apply list_elem_of_filter).
  destruct (filter (λ y, y = x) l); [by apply elem_of_nil in Hin | simpl; lia].
Qed.

Lemma counts_keys l : (counts l).*1 = unique l.
Proof.
  unfold counts.
  induction (unique l) as [|y u IH]; [done|]. by rewrite !fmap_cons, IH.
Qed.

Lemma elem_of_counts l x (n : nat) :
  (x, n) ∈ counts l ↔ x ∈ l ∧ n = occurrences x l.
Proof.
  unfold counts. rewrite list_elem_of_fmap. split.
  - intros (y & Heq & Hy). simplify_eq. by rewrite <- elem_of_unique.
  - intros [Hx ->]. exists x. by rewrite elem_of_unique.
Qed.

(** *** Indexed series: lookup *)

Lemma get_elem_of {B} (s : list (A * B)) k v d :
  NoDup s.*1 → (k, v) ∈ s → get s k d = v.
Proof.
  induction s as [|[k' v'] s IH]; simpl; intros Hnd Hin.
  - by apply elem_of_nil in Hin.
  - pose proof (NoDup_cons_1_1 _ _ Hnd) as Hk'.
    apply NoDup_cons_1_2 in Hnd.
    apply elem_of_cons in Hin as [Heq|Hin].
    + simplify_eq. by rewrite decide_True.
    + destruct (decide (k' = k)) as [->|Hne]; [|by apply IH].
      exfalso. apply Hk'. apply list_elem_of_fmap. by exists (k, v).
Qed.

Lemma get_default {B} (s : list (A * B)) k d :
  k ∉ s.*1 → get s k d = d.
Proof.
  induction s as [|[k' v'] s IH]; simpl; intros Hk; [done|].
  apply not_elem_of_cons in Hk as [Hne Hk].
  rewrite decide_False by done. by apply IH.
Qed.

(** *** Sorting by descending aggregate *)

#[global] Instance ge_count_trans : Transitive (@ge_count A).
Proof. intros p q r. unfold ge_count. lia. Qed.
#[global] Instance ge_count_total : Total (@ge_count A).
Proof. intros p q. unfold ge_count. lia. Qed.
#[global] Instance ge_value_trans : Transitive (@ge_value A).
Proof. intros p q r. unfold ge_value. lia. Qed.
#[global] Instance ge_value_total : Total (@ge_value A).
Proof. intros p q. unfold ge_value. lia. Qed.

Lemma sort_counts_desc_sorted (s : list (A * nat)) : StronglySorted ge_count (sort_counts_desc s).
Proof. apply StronglySorted_merge_sort; apply _. Qed.

Lemma sort_counts_desc_perm (s : list (A * nat)) : sort_counts_desc s ≡ₚ s.
Proof. apply merge_sort_Permutation. Qed.

Lemma sort_values_desc_sorted (s : list (A * Z)) : StronglySorted ge_value (sort_values_desc s).
Proof. apply StronglySorted_merge_sort; apply _. Qed.

Lemma sort_values_desc_perm (s : list (A * Z)) : sort_values_desc s ≡ₚ s.
Proof. apply merge_sort_Permutation. Qed.

(** *** [value_counts] *)

Lemma value_counts_perm (c : list (option A)) :
  value_counts c ≡ₚ counts (dropna c).
Proof. apply sort_counts_desc_perm. Qed.

Lemma value_counts_sorted (c : list (option A)) :
  StronglySorted ge_count (value_counts c).
Proof. apply sort_counts_desc_sorted. Qed.

Lemma elem_of_value_counts (c : list (option A)) x (n : nat) :
  (x, n) ∈ value_counts c
  ↔ Some x ∈ c ∧ n = length (filter (λ y, y = Some x) c).
Proof.
  rewrite value_counts_perm, elem_of_counts, elem_of_dropna.
  by rewrite occurrences_dropna.
Qed.

Lemma NoDup_value_counts_keys (c : list (option A)) :
  NoDup (value_counts c).*1.
Proof.
  rewrite value_counts_perm, counts_keys. apply NoDup_unique.
Qed.

Lemma get_value_counts (c : list (option A)) x :
  get (value_counts c) x 0%nat = length (filter (λ y, y = Some x) c).
Proof.
  destruct (decide (Some x ∈ c)) as [Hx|Hx].
  - apply get_elem_of; [apply NoDup_value_counts_keys|].
    by apply elem_of_value_counts.
  - rewrite get_default.
    + rewrite <- occurrences_dropna. symmetry. apply occurrences_0.
      by rewrite elem_of_dropna.
    + rewrite value_counts_perm, counts_keys, elem_of_unique.
      by rewrite elem_of_dropna.
Qed.
End SeriesFacts.

(** *** [head] *)

Section HeadFacts.
Context {B : Type}.

Lemma length_head (n : nat) (s : list B) : (length (head n s) ≤ n)%nat.
Proof. unfold head. rewrite length_take. lia. Qed.

Lemma head_subseteq (n : nat) (s : list B) : head n s ⊆ s.
Proof. apply subseteq_take. Qed.

Lemma StronglySorted_head (R : relation B) (n : nat) (s : list B) :
  StronglySorted R s → StronglySorted R (head n s).
Proof.
  unfold head. intros Hs. revert n.
  induction Hs as [|x s Hs IH Hall]; intros [|n]; simpl; try constructor.
  - apply IH.
  - by apply Forall_take.
Qed.
End HeadFacts.

(** *** [sorted] *)

Lemma sorted_perm (l : list string) : sorted l ≡ₚ l.
Proof. apply merge_sort_Permutation. Qed.

Lemma sorted_Sorted (l : list string) : StronglySorted String.le (sorted l).
Proof. apply StronglySorted_merge_sort; apply _. Qed.

(** *** int64 sums *)

Lemma wrap_int64_small (z : Z) : - 2^63 ≤ z < 2^63 → wrap_int64 z = z.
Proof. intros Hz. unfold wrap_int64. rewrite Z.mod_small; lia. Qed.

Lemma exact_sum_nonneg (l : list Z) : Forall (λ x, 0 ≤ x) l → 0 ≤ exact_sum l.
Proof. induction 1; simpl; lia. Qed.

Lemma int64_sum_exact (l : list Z) :
  Forall (λ x, 0 ≤ x) l → exact_sum l < 2^63 → int64_sum l = exact_sum l.
Proof.
  unfold int64_sum. intros Hl.
  enough (Hacc : ∀ acc, 0 ≤ acc → acc + exact_sum l < 2^63 →
            foldl (λ a x, wrap_int64 (a + x)) acc l = acc + exact_sum l).
  { intros Hb. by rewrite Hacc. }
  induction Hl as [|x l Hx Hl IH]; intros acc Hacc Hb; simpl in *; [lia|].
  pose proof (exact_sum_nonneg l Hl).
  rewrite wrap_int64_small by lia. rewrite IH; lia.
Qed.

(** *** Order of the margins *)

#[global] Instance margin_le_trans : Transitive margin_le.
Proof.
  intros m1 m2 m3. unfold margin_le.
  destruct (Match.result_margin m1), (Match.result_margin m2),
    (Match.result_margin m3); simpl; try done. lia.
Qed.

#[global] Instance margin_le_total : Total margin_le.
Proof.
  intros m1 m2. unfold margin_le.
  destruct (Match.result_margin m1), (Match.result_margin m2); simpl; auto.
  lia.
Qed.

#[global] Instance margin_le_refl : Reflexive margin_le.
Proof.
  intros m. unfold margin_le. destruct (Match.result_margin m); simpl; done.
Qed.

(** *** The season subset *)

Lemma elem_of_season_matches M s m :
  m ∈ season_matches M s ↔ m ∈ M ∧ Match.season m = s.
Proof. unfold season_matches. rewrite list_elem_of_filter. tauto. Qed.

Lemma elem_of_season_match_ids M s i :
  i ∈ season_match_ids M s
  ↔ ∃ m, m ∈ M ∧ Match.season m = s ∧ Match.id m = i.
Proof.
  unfold season_match_ids. rewrite elem_of_unique, list_elem_of_fmap. split.
  - intros (m & -> & Hm). apply elem_of_season_matches in Hm as [Hm Hs].
    by exists m.
  - intros (m & Hm & Hs & <-). exists m. split; [done|].
    by apply elem_of_season_matches.
Qed.

Lemma elem_of_season_deliveries M D s d :
  d ∈ season_deliveries M D s
  ↔ d ∈ D ∧ ∃ m, m ∈ M ∧ Match.season m = s ∧ Match.id m = Delivery.match_id d.
Proof.
  unfold season_deliveries, isin.
  rewrite list_elem_of_filter, elem_of_season_match_ids. tauto.
Qed.

(** ** Head to head *)

Lemma elem_of_pair (x a b : option string) :
  x ∈ ({[a; b]} : gset (option string)) ↔ x = a ∨ x = b.
Proof. by rewrite elem_of_union, !elem_of_singleton. Qed.

Lemma played_between_either_order A B m :
  played_between A B m
  ↔ (Match.team1 m = Some A ∧ Match.team2 m = Some B)
    ∨ (Match.team1 m = Some B ∧ Match.team2 m = Some A).
Proof.
  unfold played_between. split.
  - intros Heq.
    assert (H1 : Match.team1 m = Some A ∨ Match.team1 m = Some B)
      by (apply elem_of_pair; rewrite <- Heq; apply elem_of_pair; auto).
    assert (H2 : Match.team2 m = Some A ∨ Match.team2 m = Some B)
      by (apply elem_of_pair; rewrite <- Heq; apply elem_of_pair; auto).
    assert (HA : Some A = Match.team1 m ∨ Some A = Match.team2 m)
      by (apply elem_of_pair; rewrite Heq; apply elem_of_pair; auto).
    assert (HB : Some B = Match.team1 m ∨ Some B = Match.team2 m)
      by (apply elem_of_pair; rewrite Heq; apply elem_of_pair; auto).
    destruct H1 as [H1|H1], H2 as [H2|H2], HA as [HA|HA], HB as [HB|HB];
      try (left; split; congruence); right; split; congruence.
  - intros [[-> ->]|[-> ->]]; [done|]. apply union_comm_L.
Qed.

Lemma h2h_df_played_between M A B :
  h2h_df M A B = filter (played_between A B) M.
Proof.
  unfold h2h_df. apply list_filter_iff. intros m.
  by rewrite played_between_either_order.
Qed.

(** Rows won by one side and rows won by the other are different rows. *)
Lemma length_filter_disjoint {X} (P Q : X → Prop)
    `{!∀ x, Decision (P x)} `{!∀ x, Decision (Q x)} (l : list X) :
  (∀ x, P x → Q x → False) →
  (length (filter P l) + length (filter Q l) ≤ length l)%nat.
Proof.
  intros Hd. induction l as [|x l IH]; [done|].
  rewrite !filter_cons. destruct (decide (P x)), (decide (Q x)); simpl; try lia.
  exfalso. eauto.
Qed.

Lemma length_filter_app_season (P : Match.t → Prop) `{!∀ m, Decision (P m)} M s :
  length (filter P M)
  = (length (filter P (filter (λ m, Match.season m = s) M))
     + length (filter P (filter (λ m, Match.season m ≠ s) M)))%nat.
Proof.
  induction M as [|m M IH]; [done|].
  rewrite (filter_cons (λ m, Match.season m = s)).
  rewrite (filter_cons (λ m, Match.season m ≠ s)).
  destruct (decide (Match.season m = s)) as [Hs|Hs].
  - rewrite decide_False by tauto. rewrite !filter_cons.
    destruct (decide (P m)); simpl; lia.
  - rewrite decide_True by done. rewrite !filter_cons.
    destruct (decide (P m)); simpl; lia.
Qed.

Lemma t1_wins_length M A B :
  t1_wins M A B
  = Z.of_nat (length (filter (λ m, Match.winner m = Some A
                                   ∧ played_between A B m) M)).
Proof.
  unfold t1_wins. by rewrite h2h_df_played_between, list_filter_filter.
Qed.

Lemma t2_wins_length M A B :
  t2_wins M A B
  = Z.of_nat (length (filter (λ m, Match.winner m = Some B
                                   ∧ played_between A B m) M)).
Proof.
  unfold t2_wins. by rewrite h2h_df_played_between, list_filter_filter.
Qed.

Lemma total_length M A B :
  total M A B = Z.of_nat (length (filter (played_between A B) M)).
Proof. unfold total. by rewrite h2h_df_played_between. Qed.

Lemma wins_le_total M A B :
  A ≠ B → t1_wins M A B + t2_wins M A B ≤ total M A B.
Proof.
  intros Hne. unfold t1_wins, t2_wins, total.
  pose proof (length_filter_disjoint
                (λ m, Match.winner m = Some A) (λ m, Match.winner m = Some B)
                (h2h_df M A B)) as Hle.
  cut (length (filter (λ m, Match.winner m = Some A) (h2h_df M A B))
       + length (filter (λ m, Match.winner m = Some B) (h2h_df M A B))
       ≤ length (h2h_df M A B))%nat; [lia|].
  apply Hle. intros m HA HB. congruence.
Qed.

(** C1, as stated, fails: season 2020 and the teams A and B can be
    selected; no match between A and B is a row of the filtered season, yet
    the two matches of 2019 are counted in the total and in the wins. *)
Lemma h2h_counts_other_seasons :
  ("2020" ∈ all_seasons other_season_table
   ∧ "A" ∈ teams other_season_table ∧ "B" ∈ teams other_season_table)
  ∧ h2h_df (season_matches other_season_table "2020") "A" "B" = []
  ∧ total other_season_table "A" "B" = 2
  ∧ head_to_head other_season_table "A" "B" = H2HMetrics 1 1 0
  ∧ head_to_head_in_season other_season_table "2020" "A" "B" = H2HMetrics 0 0 0.
Proof.
  split; [|vm_compute; repeat split].
  assert (Hs : all_seasons other_season_table = ["2019"; "2020"])
    by (vm_compute; reflexivity).
  assert (Ht : teams other_season_table = ["A"; "B"])
    by (vm_compute; reflexivity).
  rewrite Hs, Ht, !elem_of_cons. auto.
Qed.

(** C1, amended: the head-to-head aggregate is computed over the whole match
    table, whatever season is selected: [total] counts the rows of the whole
    table played between the two teams, and each of the four values is the
    sum of its value over the rows of the selected season and its value over
    the rows of all other seasons. *)
Theorem head_to_head_all_seasons M s A B :
  total M A B = Z.of_nat (length (filter (played_between A B) M))
  ∧ total M A B
  = total (season_matches M s) A B
    + total (filter (λ m, Match.season m ≠ s) M) A B
  ∧ t1_wins M A B
    = t1_wins (season_matches M s) A B
      + t1_wins (filter (λ m, Match.season m ≠ s) M) A B
  ∧ t2_wins M A B
    = t2_wins (season_matches M s) A B
      + t2_wins (filter (λ m, Match.season m ≠ s) M) A B
  ∧ ties M A B
    = ties (season_matches M s) A B
      + ties (filter (λ m, Match.season m ≠ s) M) A B.
Proof.
  assert (Ht : total M A B
    = total (season_matches M s) A B
      + total (filter (λ m, Match.season m ≠ s) M) A B).
  { rewrite !total_length. unfold season_matches.
    rewrite (length_filter_app_season (played_between A B) M s). lia. }
  assert (H1 : t1_wins M A B
    = t1_wins (season_matches M s) A B
      + t1_wins (filter (λ m, Match.season m ≠ s) M) A B).
  { rewrite !t1_wins_length. unfold season_matches.
    rewrite (length_filter_app_season _ M s). lia. }
  assert (H2 : t2_wins M A B
    = t2_wins (season_matches M s) A B
      + t2_wins (filter (λ m, Match.season m ≠ s) M) A B).
  { rewrite !t2_wins_length. unfold season_matches.
    rewrite (length_filter_app_season _ M s). lia. }
  split; [apply total_length|]. repeat split; try done. unfold ties. lia.
Qed.

(** C3: for two distinct teams A and B the head-to-head selection is exactly
    the rows of the match table whose two teams are A and B, in either order;
    [total] is the number of selected rows, the win counts are the selected
    rows won by each team, and wins and ties add up to [total]. *)
Theorem head_to_head_selection_total M A B :
  A ≠ B →
  h2h_df M A B = filter (played_between A B) M
  ∧ (∀ m, m ∈ h2h_df M A B
          ↔ m ∈ M
            ∧ ((Match.team1 m = Some A ∧ Match.team2 m = Some B)
               ∨ (Match.team1 m = Some B ∧ Match.team2 m = Some A)))
  ∧ total M A B = Z.of_nat (length (filter (played_between A B) M))
  ∧ t1_wins M A B
    = Z.of_nat (length (filter (λ m, Match.winner m = Some A)
                               (filter (played_between A B) M)))
  ∧ t2_wins M A B
    = Z.of_nat (length (filter (λ m, Match.winner m = Some B)
                               (filter (played_between A B) M)))
  ∧ head_to_head M A B
    = H2HMetrics (t1_wins M A B) (t2_wins M A B) (ties M A B)
  ∧ t1_wins M A B + t2_wins M A B + ties M A B = total M A B.
Proof.
  intros Hne. split; [apply h2h_df_played_between|].
  split.
  { intros m. unfold h2h_df. rewrite list_elem_of_filter. tauto. }
  split; [apply total_length|].
  split; [unfold t1_wins; by rewrite h2h_df_played_between|].
  split; [unfold t2_wins; by rewrite h2h_df_played_between|].
  split; [unfold head_to_head; by rewrite decide_True|].
  unfold ties. lia.
Qed.

Lemma head_to_head_selection_total_witness :
  "A" ≠ "B"
  ∧ head_to_head rivalry_table "A" "B" = H2HMetrics 1 1 1
  ∧ total rivalry_table "A" "B" = 3.
Proof.
  split; [done|].
  destruct (head_to_head_selection_total rivalry_table "A" "B")
    as (_ & _ & _ & _ & _ & Hview & _); [done|].
  split; [rewrite Hview|]; vm_compute; reflexivity.
Defined.

(** C10: for two distinct teams the two win counts together never exceed
    [total], so the ties are never negative: no selected row is won by both
    teams. *)
Theorem head_to_head_ties_nonneg M A B :
  A ≠ B →
  t1_wins M A B + t2_wins M A B ≤ total M A B
  ∧ 0 ≤ ties M A B
  ∧ 0 ≤ t1_wins M A B ∧ 0 ≤ t2_wins M A B
  ∧ (∀ m, m ∈ h2h_df M A B →
          Match.winner m = Some A → Match.winner m = Some B → False).
Proof.
  intros Hne. pose proof (wins_le_total M A B Hne) as Hle.
  split; [done|]. split; [unfold ties; lia|].
  split; [unfold t1_wins; lia|]. split; [unfold t2_wins; lia|].
  intros m _ HA HB. congruence.
Qed.

Lemma head_to_head_ties_nonneg_witness :
  "A" ≠ "B"
  ∧ t1_wins rivalry_table "A" "B" + t2_wins rivalry_table "A" "B"
    ≤ total rivalry_table "A" "B"
  ∧ 0 ≤ ties rivalry_table "A" "B".
Proof.
  split; [done|].
  destruct (head_to_head_ties_nonneg rivalry_table "A" "B")
    as (Hle & Hties & _); [done|].
  split; [exact Hle | exact Hties].
Defined.

(** C4: when the same team is selected on both sides the head-to-head block
    computes no record: it shows the warning and neither counts nor chart
    values. *)
Theorem head_to_head_same_team M A :
  head_to_head M A A = H2HWarning "Choose two different teams."
  ∧ ∀ w1 w2 t, head_to_head M A A ≠ H2HMetrics w1 w2 t.
Proof.
  unfold head_to_head. rewrite decide_False by (intros Hne; done).
  split; [done|]. intros w1 w2 t. discriminate.
Qed.

(** ** Team selection list *)

(** C9, as stated, fails: B takes part in a match of the table and is not in
    the selection list. *)
Lemma teams_misses_second_team :
  participates second_team_table "B"
  ∧ teams second_team_table = ["A"]
  ∧ "B" ∉ teams second_team_table.
Proof.
  split.
  - eexists. split; [apply list_elem_of_here|]. right. reflexivity.
  - assert (Ht : teams second_team_table = ["A"]) by (vm_compute; reflexivity).
    split; [done|]. rewrite Ht. by intros ?%list_elem_of_singleton.
Qed.

(** C9, amended: the team selection list is the sorted list of the distinct
    non-null values of the [team1] column of the whole match table: it is
    sorted, and every team that is the first team of some match of the table
    appears in it exactly once, and nothing else does. *)
Theorem teams_first_team_column M :
  StronglySorted String.le (teams M)
  ∧ NoDup (teams M)
  ∧ ∀ t, t ∈ teams M ↔ ∃ m, m ∈ M ∧ Match.team1 m = Some t.
Proof.
  unfold teams. split; [apply sorted_Sorted|]. split.
  - rewrite sorted_perm. apply NoDup_unique.
  - intros t.
    rewrite sorted_perm, elem_of_unique, elem_of_dropna, list_elem_of_fmap.
    split; intros (m & H1 & H2); exists m; by split.
Qed.

(** ** Top-N rankings *)

Lemma head_value_counts_ranking {K} `{EqDecision K} n (c : list (option K)) :
  ranking ge_count n (head n (value_counts c)).
Proof.
  split; [apply length_head|].
  apply StronglySorted_head, value_counts_sorted.
Qed.

Lemma head_sort_values_ranking {K} `{EqDecision K} n (s : list (K * Z)) :
  ranking ge_value n (head n (sort_values_desc s)).
Proof.
  split; [apply length_head|].
  apply StronglySorted_head, sort_values_desc_sorted.
Qed.

(** C8: each top-N aggregation of the page (run scorers, top 5 and top 10;
    wicket takers, top 5 and top 10; player-of-match awards, top 5; six
    hitters, top 10; dot-ball bowlers, top 10) has at most N entries, in
    non-increasing order of the aggregate. *)
Theorem top_n_rankings M D s :
  ranking ge_value 5 (top_batsmen M D s)
  ∧ ranking ge_value 10 (top_batsmen_leaders M D s)
  ∧ ranking ge_count 5 (top_bowlers M D s)
  ∧ ranking ge_count 10 (top_wickets M D s)
  ∧ ranking ge_count 5 (top_mom M s)
  ∧ ranking ge_count 10 (most_sixes M D s)
  ∧ ranking ge_count 10 (dot_bowlers M D s).
Proof.
  repeat match goal with |- _ ∧ _ => split end;
    first [ apply head_value_counts_ranking | apply head_sort_values_ranking ].
Qed.

(** ** Wickets *)

Lemma isin_not_credited (c : option string) :
  isin c (Some <$> not_credited)
  ↔ c = Some "run out" ∨ c = Some "retired hurt"
    ∨ c = Some "obstructing the field".
Proof.
  unfold isin, not_credited. rewrite !fmap_cons, fmap_nil.
  rewrite !elem_of_cons, elem_of_nil. tauto.
Qed.

Lemma wickets_df_credited M D s :
  wickets_df M D s = filter credited_to_bowler (season_deliveries M D s).
Proof.
  unfold wickets_df. cbv zeta. rewrite list_filter_filter.
  apply list_filter_iff. intros d. rewrite isin_not_credited.
  unfold credited_to_bowler.
  destruct (Delivery.dismissal_kind d) as [k|]; [|tauto].
  split.
  - intros [Hn _]. repeat split; intros ->; tauto.
  - intros (H1 & H2 & H3). split; [|done].
    intros [?|[?|?]]; congruence.
Qed.

Lemma length_filter_fmap {X Y} (f : X → Y) (P : Y → Prop)
    `{!∀ y, Decision (P y)} (l : list X) :
  length (filter P (f <$> l)) = length (filter (λ x, P (f x)) l).
Proof.
  induction l as [|x l IH]; [done|].
  rewrite fmap_cons, !filter_cons. destruct (decide (P (f x))); simpl; lia.
Qed.

Lemma wicket_count_of_bowler M D s b :
  get (value_counts (Delivery.bowler <$> wickets_df M D s)) b 0%nat
  = wickets_of b (season_deliveries M D s).
Proof.
  rewrite get_value_counts, length_filter_fmap, wickets_df_credited.
  unfold wickets_of. by rewrite list_filter_filter.
Qed.

Lemma wicket_entry M D s b (n : nat) :
  (b, n) ∈ value_counts (Delivery.bowler <$> wickets_df M D s) →
  n = wickets_of b (season_deliveries M D s).
Proof.
  intros Hin. rewrite <- wicket_count_of_bowler. symmetry.
  apply get_elem_of; [apply NoDup_value_counts_keys | done].
Qed.

Lemma season_deliveries_app M D1 D2 s :
  season_deliveries M (D1 ++ D2) s
  = season_deliveries M D1 s ++ season_deliveries M D2 s.
Proof. unfold season_deliveries. apply filter_app. Qed.

(** C2: the wicket count of every bowler is the number of deliveries of the
    season bowled by that bowler whose dismissal kind is present and is none
    of run out, retired hurt and obstructing the field; the entries of both
    wicket rankings carry that number; a run-out delivery is no row of the
    wickets table, and adding one to the delivery table changes no count. *)
Theorem wicket_counts_credited_only M D s :
  wickets_df M D s = filter credited_to_bowler (season_deliveries M D s)
  ∧ (∀ b, get (value_counts (Delivery.bowler <$> wickets_df M D s)) b 0%nat
          = wickets_of b (season_deliveries M D s))
  ∧ (∀ b n, (b, n) ∈ top_bowlers M D s ∨ (b, n) ∈ top_wickets M D s →
            n = wickets_of b (season_deliveries M D s)
            ∧ (0 < n)%nat)
  ∧ (∀ d, Delivery.dismissal_kind d = Some "run out" →
          d ∉ wickets_df M D s)
  ∧ (∀ D1 d D2, Delivery.dismissal_kind d = Some "run out" →
       value_counts (Delivery.bowler <$> wickets_df M (D1 ++ d :: D2) s)
       = value_counts (Delivery.bowler <$> wickets_df M (D1 ++ D2) s)).
Proof.
  split; [apply wickets_df_credited|].
  split; [apply wicket_count_of_bowler|].
  assert (Hout : ∀ d, Delivery.dismissal_kind d = Some "run out" →
                      ¬ credited_to_bowler d).
  { intros d Hd. unfold credited_to_bowler. rewrite Hd. tauto. }
  split; [|split].
  - intros b n Hin.
    assert (Hvc : (b, n) ∈ value_counts (Delivery.bowler <$> wickets_df M D s)).
    { destruct Hin as [Hin|Hin]; by apply head_subseteq in Hin. }
    split; [by apply wicket_entry|].
    apply elem_of_value_counts in Hvc as [Hb ->].
    assert (Hin' : Some b ∈ filter (λ y, y = Some b)
                     (Delivery.bowler <$> wickets_df M D s))
      by (by apply list_elem_of_filter).
    destruct (filter _ _); [by apply elem_of_nil in Hin' | simpl; lia].
  - intros d Hd. rewrite wickets_df_credited, list_elem_of_filter.
    intros [Hc _]. by apply (Hout d).
  - intros D1 d D2 Hd. rewrite !wickets_df_credited.
    rewrite !season_deliveries_app, !filter_app.
    replace (filter credited_to_bowler (season_deliveries M (d :: D2) s))
      with (filter credited_to_bowler (season_deliveries M D2 s)); [done|].
    unfold season_deliveries. rewrite (filter_cons _ d D2).
    destruct (decide _); [|done].
    by rewrite filter_cons_False by (by apply Hout).
Qed.

Lemma wicket_counts_credited_only_witness :
  top_bowlers scenario_matches wicket_deliveries "2020" = [("B", 2%nat)]
  ∧ wickets_of "B" (season_deliveries scenario_matches wicket_deliveries "2020")
    = 2%nat
  ∧ delivery_row 1 "C" "B" 1 (Some "run out") (Some "C")
    ∉ wickets_df scenario_matches wicket_deliveries "2020".
Proof.
  destruct (wicket_counts_credited_only scenario_matches wicket_deliveries "2020")
    as (_ & Hget & _ & Hout & _).
  split; [vm_compute; reflexivity|]. split.
  - rewrite <- Hget. vm_compute. reflexivity.
  - apply Hout. reflexivity.
Defined.


(** ** Strike rate *)

Lemma strike_rate_positive run_count ball_count :
  ball_count > 0 →
  strike_rate run_count ball_count
  = Some (PyFloat (round2 (float_of_int64 run_count
                           / float_of_int64 ball_count * 100)%float)).
Proof.
  intros Hpos. unfold strike_rate, true_divide.
  rewrite decide_True by done. by rewrite decide_False by lia.
Qed.

(** C5: with a positive number of balls the strike rate is the quotient of
    runs by balls, times 100, rounded to two decimals; with no ball it is 0;
    in both cases no division by a zero divisor takes place; 6 runs off 4
    balls give 150.0. *)
Theorem strike_rate_guarded run_count ball_count :
  (ball_count > 0 →
     strike_rate run_count ball_count
     = Some (PyFloat (round2 (float_of_int64 run_count
                              / float_of_int64 ball_count * 100)%float)))
  ∧ (ball_count = 0 → strike_rate run_count ball_count = Some (PyInt 0))
  ∧ is_Some (strike_rate run_count ball_count)
  ∧ strike_rate 6 4 = Some (PyFloat 150%float).
Proof.
  split; [apply strike_rate_positive|].
  unfold strike_rate, true_divide. repeat split.
  - intros ->. by rewrite decide_False by lia.
  - destruct (decide (ball_count > 0)); [|by eexists].
    rewrite decide_False by lia. by eexists.
Qed.

Lemma strike_rate_guarded_witness :
  4 > 0 ∧ strike_rate 6 4 = Some (PyFloat 150%float).
Proof.
  split; [lia|].
  destruct (strike_rate_guarded 6 4) as (Hpos & _).
  rewrite Hpos by lia. vm_compute. reflexivity.
Defined.

(** ** Player vs player *)

Lemma in_season_match_ids M s d :
  in_season M s d ↔ isin (Delivery.match_id d) (season_match_ids M s).
Proof.
  unfold in_season, isin. rewrite elem_of_season_match_ids, Exists_exists.
  split; intros (m & H1 & H2); exists m; tauto.
Qed.

Lemma pvp_df_rows M D s bat bowl :
  pvp_df M D s bat bowl
  = filter (λ d, (Delivery.batter d = Some bat ∧ Delivery.bowler d = Some bowl)
                 ∧ in_season M s d) D.
Proof.
  unfold pvp_df, season_deliveries. rewrite list_filter_filter.
  apply list_filter_iff. intros d. by rewrite in_season_match_ids.
Qed.

Lemma boundaries_get M D s bat bowl (k : Z) :
  k ∈ [4; 6] →
  get (boundaries M D s bat bowl) k 0%nat
  = length (filter (λ d, Delivery.batsman_runs d = k) (pvp_df M D s bat bowl)).
Proof.
  intros Hk. unfold boundaries.
  rewrite get_value_counts, !length_filter_fmap, list_filter_filter.
  f_equal. apply list_filter_iff. intros d. unfold isin. split.
  - intros [Heq _]. congruence.
  - intros <-. done.
Qed.

(** C6: the player-vs-player rows are exactly the deliveries of the selected
    season with the selected batter and bowler; an empty matchup shows the
    "no data" message; otherwise runs is the sum of [batsman_runs] (the int64
    sum, equal to the exact sum of non-negative runs below 2^63), balls the
    number of rows, dismissals the rows dismissing the selected batsman,
    fours and sixes the rows with 4 and with 6 runs, and the strike rate that
    of runs and balls. *)
Theorem player_vs_player_statistics M D s bat bowl :
  pvp_df M D s bat bowl
  = filter (λ d, (Delivery.batter d = Some bat ∧ Delivery.bowler d = Some bowl)
                 ∧ in_season M s d) D
  ∧ (pvp_df M D s bat bowl = [] →
     player_vs_player M D s bat bowl = PvpWarning "No data for this matchup.")
  ∧ (pvp_df M D s bat bowl ≠ [] →
     player_vs_player M D s bat bowl
     = PvpMetrics
         (int64_sum (Delivery.batsman_runs <$> pvp_df M D s bat bowl))
         (Z.of_nat (length (pvp_df M D s bat bowl)))
         (Z.of_nat (length (filter (λ d, Delivery.player_dismissed d = Some bat)
                                   (pvp_df M D s bat bowl))))
         (Some (PyFloat
            (round2 (float_of_int64 (runs M D s bat bowl)
                     / float_of_int64 (balls M D s bat bowl) * 100)%float)))
         (length (filter (λ d, Delivery.batsman_runs d = 4)
                         (pvp_df M D s bat bowl)))
         (length (filter (λ d, Delivery.batsman_runs d = 6)
                         (pvp_df M D s bat bowl))))
  ∧ (Forall (λ d, 0 ≤ Delivery.batsman_runs d) (pvp_df M D s bat bowl) →
     exact_sum (Delivery.batsman_runs <$> pvp_df M D s bat bowl) < 2^63 →
     runs M D s bat bowl
     = exact_sum (Delivery.batsman_runs <$> pvp_df M D s bat bowl)).
Proof.
  split; [apply pvp_df_rows|]. split; [|split].
  - intros Hnil. unfold player_vs_player. by rewrite decide_True.
  - intros Hne. unfold player_vs_player. rewrite decide_False by done.
    rewrite !boundaries_get
      by (rewrite !elem_of_cons; auto).
    assert (Hballs : balls M D s bat bowl > 0).
    { unfold balls. destruct (pvp_df M D s bat bowl); [done|simpl; lia]. }
    by rewrite (strike_rate_positive _ _ Hballs).
  - intros Hpos Hb. unfold runs. apply int64_sum_exact; [|done].
    by apply Forall_fmap.
Qed.

Lemma player_vs_player_statistics_witness :
  pvp_df scenario_matches scenario_deliveries "2020" "A" "B" = scenario_deliveries
  ∧ player_vs_player scenario_matches scenario_deliveries "2020" "A" "B"
    = PvpMetrics 5 2 0 (Some (PyFloat 250%float)) 1 0
  ∧ runs scenario_matches scenario_deliveries "2020" "A" "B" = 1 + 4.
Proof.
  assert (Hrows : pvp_df scenario_matches scenario_deliveries "2020" "A" "B"
                  = scenario_deliveries) by (vm_compute; reflexivity).
  destruct (player_vs_player_statistics
              scenario_matches scenario_deliveries "2020" "A" "B")
    as (_ & _ & Hview & Hruns).
  split; [exact Hrows|]. split.
  - rewrite Hview by (rewrite Hrows; discriminate). vm_compute. reflexivity.
  - rewrite Hruns; rewrite Hrows.
    + reflexivity.
    + repeat constructor; simpl; lia.
    + vm_compute. reflexivity.
Defined.

(** ** Thriller of the season *)

Lemma thrillers_perm M s :
  thrillers M s
  ≡ₚ filter (λ m, Match.result m = Some "normal") (season_matches M s).
Proof. apply merge_sort_Permutation. Qed.

Lemma thrillers_sorted M s : StronglySorted margin_le (thrillers M s).
Proof. apply StronglySorted_merge_sort; apply _. Qed.

Lemma elem_of_thrillers M s m :
  m ∈ thrillers M s
  ↔ m ∈ M ∧ Match.season m = s ∧ Match.result m = Some "normal".
Proof.
  rewrite thrillers_perm, list_elem_of_filter, elem_of_season_matches. tauto.
Qed.

(** C7: when the season has no match with result "normal" the block shows
    the "no close match" message; otherwise it shows a match of the season
    with result "normal" whose margin is minimal among those matches (a
    missing margin ranking last): whenever one of them has a margin, the
    match shown has one too, and no larger. *)
Theorem thriller_minimal_margin M s :
  (filter (λ m, Match.result m = Some "normal") (season_matches M s) = [] →
   thriller_of_the_season M s
   = ThrillerInfo "No close match found for this season.")
  ∧ (filter (λ m, Match.result m = Some "normal") (season_matches M s) ≠ [] →
     ∃ t, thriller_of_the_season M s = ThrillerMatch t
          ∧ t ∈ M ∧ Match.season t = s ∧ Match.result t = Some "normal"
          ∧ ∀ m, m ∈ M → Match.season m = s →
                 Match.result m = Some "normal" →
                 margin_le t m
                 ∧ ∀ x, Match.result_margin m = Some x →
                        ∃ y, Match.result_margin t = Some y ∧ y ≤ x).
Proof.
  pose proof (thrillers_perm M s) as Hperm.
  pose proof (thrillers_sorted M s) as Hsorted.
  unfold thriller_of_the_season. split.
  - intros Hnil. rewrite Hnil in Hperm.
    apply Permutation_nil_r in Hperm. by rewrite Hperm.
  - intros Hne.
    pose proof (elem_of_thrillers M s) as Hmem.
    destruct (thrillers M s) as [|t rest].
    { symmetry in Hperm. apply Permutation_nil_r in Hperm. done. }
    exists t. split; [done|].
    destruct (proj1 (Hmem t)) as (Ht1 & Ht2 & Ht3); [apply list_elem_of_here|].
    repeat (split; [done|]).
    intros m Hm Hs Hr.
    assert (Hle : margin_le t m).
    { assert (Hin : m ∈ t :: rest) by (by apply Hmem).
      apply elem_of_cons in Hin as [->|Hin]; [reflexivity|].
      apply StronglySorted_inv in Hsorted as [_ Hall].
      by apply (proj1 (Forall_forall _ _) Hall). }
    split; [done|]. intros x Hx. unfold margin_le in Hle. rewrite Hx in Hle.
    destruct (Match.result_margin t) as [y|]; [|done]. by exists y.
Qed.

Lemma thriller_minimal_margin_witness :
  thriller_of_the_season margins_table "2020"
  = ThrillerMatch (match_row 2 "2020" "C" "D" (Some "D") "normal" (Some 2))
  ∧ ∃ t y, thriller_of_the_season margins_table "2020" = ThrillerMatch t
           ∧ Match.result_margin t = Some y ∧ y ≤ 2.
Proof.
  split; [vm_compute; reflexivity|].
  destruct (thriller_minimal_margin margins_table "2020") as [_ Hsome].
  destruct Hsome as (t & Hview & _ & _ & _ & Hmin); [vm_compute; discriminate|].
  destruct (Hmin (match_row 2 "2020" "C" "D" (Some "D") "normal" (Some 2)))
    as [_ Hle]; [|reflexivity|reflexivity|].
  { apply list_elem_of_further, list_elem_of_here. }
  destruct (Hle 2 eq_refl) as (y & Hy & Hy2).
  exists t, y. by repeat split.
Defined.

(** ** Further facts about the primitives *)

Lemma sum_list_perm (l k : list nat) : l ≡ₚ k → sum_list l = sum_list k.
Proof. induction 1; simpl; lia. Qed.

Lemma length_filter_impl {X} (P Q : X → Prop)
    `{!∀ x, Decision (P x)} `{!∀ x, Decision (Q x)} (l : list X) :
  (∀ x, P x → Q x) → (length (filter P l) ≤ length (filter Q l))%nat.
Proof.
  intros Himpl. induction l as [|x l IH]; [done|].
  rewrite !filter_cons. destruct (decide (P x)) as [HP|HP].
  - rewrite decide_True by auto. simpl. lia.
  - destruct (decide (Q x)); simpl; lia.
Qed.

Lemma length_dropna {X} (c : list (option X)) :
  length (omap (λ x, x) c) = length (filter (λ y, y ≠ None) c).
Proof.
  induction c as [|[x|] c IH]; [done| |].
  - rewrite filter_cons_True by done. simpl. f_equal. exact IH.
  - rewrite filter_cons_False by (intros Hn; by apply Hn). exact IH.
Qed.

Section CountFacts.
Context {A : Type} `{EqDecision A}.
Implicit Types (l u : list A) (x y : A).

Lemma sum_indicator_0 u y :
  y ∉ u → sum_list ((λ x, if decide (y = x) then 1 else 0)%nat <$> u) = 0%nat.
Proof.
  induction u as [|x u IH]; [done|]. intros Hy.
  apply not_elem_of_cons in Hy as [Hne Hy].
  rewrite fmap_cons. simpl. rewrite decide_False by done. by rewrite IH.
Qed.

Lemma sum_indicator_1 u y :
  NoDup u → y ∈ u →
  sum_list ((λ x, if decide (y = x) then 1 else 0)%nat <$> u) = 1%nat.
Proof.
  induction 1 as [|x u Hx Hnd IH]; intros Hy.
  - by apply elem_of_nil in Hy.
  - rewrite fmap_cons. simpl. destruct (decide (y = x)) as [->|Hne].
    + by rewrite sum_indicator_0.
    + apply elem_of_cons in Hy as [?|Hy]; [done|]. by rewrite IH.
Qed.

Lemma sum_occurrences_cons u y l :
  sum_list ((λ x, occurrences x (y :: l)) <$> u)
  = (sum_list ((λ x, if decide (y = x) then 1 else 0)%nat <$> u)
     + sum_list ((λ x, occurrences x l) <$> u))%nat.
Proof.
  induction u as [|x u IH]; [done|].
  rewrite !fmap_cons. simpl. rewrite IH. unfold occurrences.
  rewrite filter_cons. destruct (decide (y = x)); simpl; lia.
Qed.

Lemma sum_occurrences u l :
  NoDup u → (∀ x, x ∈ l → x ∈ u) →
  sum_list ((λ x, occurrences x l) <$> u) = length l.
Proof.
  intros Hnd. induction l as [|y l IH]; intros Hsub.
  - clear. induction u as [|x u IH]; [done|]. rewrite fmap_cons. simpl.
    by rewrite IH.
  - rewrite sum_occurrences_cons, sum_indicator_1, IH; simpl; try done.
    + intros x Hx. apply Hsub. by apply list_elem_of_further.
    + apply Hsub, list_elem_of_here.
Qed.

Lemma sum_counts l : sum_list (counts l).*2 = length l.
Proof.
  unfold counts. rewrite <- list_fmap_compose.
  apply (sum_occurrences (unique l) l); [apply NoDup_unique|].
  intros x. by rewrite elem_of_unique.
Qed.

Lemma sum_value_counts (c : list (option A)) :
  sum_list (value_counts c).*2 = length (filter (λ cell, cell ≠ None) c).
Proof.
  rewrite (sum_list_perm _ (counts (dropna c)).*2).
  - rewrite sum_counts. apply length_dropna.
  - apply fmap_Permutation, value_counts_perm.
Qed.

Lemma value_counts_pos (c : list (option A)) x (n : nat) :
  (x, n) ∈ value_counts c → (0 < n)%nat.
Proof.
  intros Hin. apply elem_of_value_counts in Hin as [Hx ->].
  rewrite <- occurrences_dropna. apply occurrences_pos.
  by apply elem_of_dropna.
Qed.
End CountFacts.

(** The rows kept by [head] rank at least as high as the rows left out. *)
Lemma head_dominates {B} (R : relation B) (n : nat) (s : list B) x y :
  StronglySorted R s → x ∈ head n s → y ∈ drop n s → R x y.
Proof.
  unfold head. intros Hs Hx Hy. rewrite <- (take_drop n s) in Hs.
  by apply (StronglySorted_app_1_elem_of R (take n s) (drop n s)).
Qed.

Lemma elem_of_head_or_drop {B} (n : nat) (s : list B) y :
  y ∈ s → y ∈ head n s ∨ y ∈ drop n s.
Proof.
  unfold head. intros Hy. rewrite <- (take_drop n s) in Hy.
  by apply elem_of_app in Hy.
Qed.

Lemma head_head {B} (n k : nat) (s : list B) :
  (n ≤ k)%nat → head n (head k s) = head n s.
Proof. unfold head. intros Hle. rewrite take_take. f_equal. lia. Qed.

Lemma NoDup_fmap_eq {X Y} (f : X → Y) (l : list X) x y :
  NoDup (f <$> l) → x ∈ l → y ∈ l → f x = f y → x = y.
Proof.
  induction l as [|z l IH]; intros Hnd Hx Hy Hf.
  - by apply elem_of_nil in Hx.
  - rewrite fmap_cons in Hnd.
    pose proof (NoDup_cons_1_1 _ _ Hnd) as Hz.
    apply NoDup_cons_1_2 in Hnd.
    apply elem_of_cons in Hx as [->|Hx]; apply elem_of_cons in Hy as [->|Hy];
      [done| | |by apply IH].
    + exfalso. apply Hz. rewrite Hf. by apply list_elem_of_fmap_2.
    + exfalso. apply Hz. rewrite <- Hf. by apply list_elem_of_fmap_2.
Qed.


Lemma nunique_le_length {X} `{EqDecision X} (c : list (option X)) :
  (nunique c ≤ length c)%nat.
Proof.
  unfold nunique.
  assert (H1 : (length (unique (dropna c)) ≤ length (dropna c))%nat).
  { apply submseteq_length, NoDup_submseteq; [apply NoDup_unique|].
    intros x. by rewrite elem_of_unique. }
  assert (H2 : (length (dropna c) ≤ length c)%nat).
  { unfold dropna. rewrite length_dropna. apply length_filter. }
  lia.
Qed.

Lemma selection_list_spec (c : list (option string)) :
  StronglySorted String.le (sorted (unique (dropna c)))
  ∧ NoDup (sorted (unique (dropna c)))
  ∧ ∀ x, x ∈ sorted (unique (dropna c)) ↔ Some x ∈ c.
Proof.
  split; [apply sorted_Sorted|]. split.
  - rewrite sorted_perm. apply NoDup_unique.
  - intros x. by rewrite sorted_perm, elem_of_unique, elem_of_dropna.
Qed.

(** ** Sidebar and season overview *)



(** X2: the season's deliveries are rows of the delivery table, in table
    order, and exactly those whose match id is the id of a match of the
    season; a season without matches has no deliveries. *)
Theorem season_deliveries_referential M D s :
  season_deliveries M D s `sublist_of` D
  ∧ (∀ d, d ∈ season_deliveries M D s
          ↔ d ∈ D ∧ Delivery.match_id d ∈ Match.id <$> season_matches M s)
  ∧ (season_matches M s = [] → season_deliveries M D s = []).
Proof.
  split; [apply sublist_filter|]. split.
  - intros d. unfold season_deliveries, isin, season_match_ids.
    rewrite list_elem_of_filter, elem_of_unique. tauto.
  - intros Hnil. unfold season_deliveries, season_match_ids. rewrite Hnil.
    induction D as [|d D IH]; [done|].
    rewrite filter_cons_False; [done|]. unfold isin. apply not_elem_of_nil.
Qed.

(** X3: when the match ids are unique, a delivery belongs to the deliveries
    of at most one season. *)
Theorem season_deliveries_one_season M D s s' d :
  NoDup (Match.id <$> M) →
  d ∈ season_deliveries M D s → d ∈ season_deliveries M D s' → s = s'.
Proof.
  intros Hnd Hd Hd'.
  apply elem_of_season_deliveries in Hd as (_ & m & Hm & Hs & Hid).
  apply elem_of_season_deliveries in Hd' as (_ & m' & Hm' & Hs' & Hid').
  assert (m = m') as ->; [|congruence].
  apply (NoDup_fmap_eq Match.id M); [done..|congruence].
Qed.

(** X4: the batter and bowler lists are sorted and free of duplicates, and
    hold exactly the non-null batters and bowlers of the season's
    deliveries; both are empty when the season has no delivery. *)
Theorem batters_bowlers_lists M D s :
  (StronglySorted String.le (batters M D s) ∧ NoDup (batters M D s)
   ∧ ∀ b, b ∈ batters M D s
          ↔ ∃ d, d ∈ season_deliveries M D s ∧ Delivery.batter d = Some b)
  ∧ (StronglySorted String.le (bowlers M D s) ∧ NoDup (bowlers M D s)
     ∧ ∀ b, b ∈ bowlers M D s
            ↔ ∃ d, d ∈ season_deliveries M D s ∧ Delivery.bowler d = Some b)
  ∧ (season_deliveries M D s = [] → batters M D s = [] ∧ bowlers M D s = []).
Proof.
  unfold batters, bowlers. split; [|split].
  - destruct (selection_list_spec (Delivery.batter <$> season_deliveries M D s))
      as (H1 & H2 & H3).
    split; [done|]. split; [done|]. intros b. rewrite H3, list_elem_of_fmap.
    split; intros (d & Hd1 & Hd2); exists d; by split.
  - destruct (selection_list_spec (Delivery.bowler <$> season_deliveries M D s))
      as (H1 & H2 & H3).
    split; [done|]. split; [done|]. intros b. rewrite H3, list_elem_of_fmap.
    split; intros (d & Hd1 & Hd2); exists d; by split.
  - intros ->. split; vm_compute; reflexivity.
Qed.

(** X5: in the season overview the numbers of cities, teams and venues never
    exceed the number of matches, and the number of teams never exceeds the
    length of the team selection list. *)
Theorem overview_metrics_bounds M s :
  (metric_cities M s ≤ metric_matches M s)%nat
  ∧ (metric_teams M s ≤ metric_matches M s)%nat
  ∧ (metric_venues M s ≤ metric_matches M s)%nat
  ∧ (metric_teams M s ≤ length (teams M))%nat.
Proof.
  unfold metric_cities, metric_teams, metric_venues, metric_matches.
  repeat split;
    try (etrans; [apply nunique_le_length|]; by rewrite length_fmap).
  unfold teams, nunique. rewrite (Permutation_length (sorted_perm _)).
  apply submseteq_length, NoDup_submseteq; [apply NoDup_unique|].
  intros t. rewrite !elem_of_unique, !elem_of_dropna, !list_elem_of_fmap.
  intros (m & Ht & Hm). exists m. split; [done|].
  by apply elem_of_season_matches in Hm as [Hm _].
Qed.

Lemma season_deliveries_one_season_witness :
  NoDup (Match.id <$> margins_table)
  ∧ delivery_row 1 "A" "B" 0 (Some "bowled") (Some "A")
    ∈ season_deliveries margins_table wicket_deliveries "2020"
  ∧ "2020" = "2020".
Proof.
  assert (Hnd : NoDup (Match.id <$> margins_table)).
  { vm_compute. repeat (apply NoDup_cons_2; [rewrite ?elem_of_cons, elem_of_nil; lia|]).
    apply NoDup_nil_2. }
  assert (Hd : delivery_row 1 "A" "B" 0 (Some "bowled") (Some "A")
               ∈ season_deliveries margins_table wicket_deliveries "2020").
  { apply elem_of_season_deliveries. split; [apply list_elem_of_here|].
    eexists. split; [apply list_elem_of_here|]. by split. }
  split; [exact Hnd|]. split; [exact Hd|].
  exact (season_deliveries_one_season margins_table wicket_deliveries
           "2020" "2020" _ Hnd Hd Hd).
Defined.

(** ** Counts per value *)

Lemma elem_of_value_counts_fmap {X K} `{EqDecision K}
    (f : X → option K) (rows : list X) (k : K) (n : nat) :
  (k, n) ∈ value_counts (f <$> rows)
  ↔ (0 < n)%nat ∧ n = length (filter (λ r, f r = Some k) rows).
Proof.
  split.
  - intros Hin. split; [by eapply value_counts_pos|].
    apply elem_of_value_counts in Hin as [_ ->].
    by rewrite length_filter_fmap.
  - intros [Hpos ->]. apply elem_of_value_counts.
    rewrite length_filter_fmap. split; [|done].
    destruct (filter (λ r, f r = Some k) rows) as [|r l] eqn:Hf;
      [simpl in Hpos; lia|].
    assert (Hr : r ∈ filter (λ r, f r = Some k) rows)
      by (rewrite Hf; apply list_elem_of_here).
    apply list_elem_of_filter in Hr as [<- Hr]. by apply list_elem_of_fmap_2.
Qed.

Lemma head_holds_largest {B} (R : relation B) (n : nat) (s : list B) :
  StronglySorted R s → holds_largest R (head n s) s.
Proof.
  intros Hs x y Hx Hy Hny.
  apply (elem_of_head_or_drop n) in Hy as [Hy|Hy]; [done|].
  by apply (head_dominates R n s).
Qed.

(** X6: the wins-per-team series has one entry per team that won a match of
    the season, with the number of season matches it won; the entries are in
    non-increasing order, and the wins add up to the number of season matches
    that have a winner, so to no more than the number of matches. *)
Theorem winner_count_wins M s :
  (∀ w n, (w, n) ∈ winner_count M s
          ↔ (0 < n)%nat
            ∧ n = length (filter (λ m, Match.winner m = Some w)
                                 (season_matches M s)))
  ∧ NoDup (winner_count M s).*1
  ∧ StronglySorted ge_count (winner_count M s)
  ∧ sum_list (winner_count M s).*2
    = length (filter (λ m, Match.winner m ≠ None) (season_matches M s))
  ∧ (sum_list (winner_count M s).*2 ≤ metric_matches M s)%nat.
Proof.
  unfold winner_count.
  assert (Hsum : sum_list (value_counts (Match.winner <$> season_matches M s)).*2
    = length (filter (λ m, Match.winner m ≠ None) (season_matches M s))).
  { by rewrite sum_value_counts, length_filter_fmap. }
  split; [intros w n; apply elem_of_value_counts_fmap|].
  split; [apply NoDup_value_counts_keys|].
  split; [apply value_counts_sorted|]. split; [done|].
  rewrite Hsum. apply length_filter.
Qed.

(** X7: every entry of the award, six-hitter and dot-ball rankings carries
    the number of rows it stands for: the season matches with that player of
    the match, the season deliveries on which that batter scored 6, and the
    season deliveries with no run at all bowled by that bowler. *)
Theorem count_rankings_entries M D s :
  (∀ p n, (p, n) ∈ top_mom M s →
          (0 < n)%nat
          ∧ n = length (filter (λ m, Match.player_of_match m = Some p)
                               (season_matches M s)))
  ∧ (∀ b n, (b, n) ∈ most_sixes M D s →
            (0 < n)%nat
            ∧ n = length (filter (λ d, Delivery.batter d = Some b
                                       ∧ Delivery.batsman_runs d = 6)
                                 (season_deliveries M D s)))
  ∧ (∀ b n, (b, n) ∈ dot_bowlers M D s →
            (0 < n)%nat
            ∧ n = length (filter (λ d, Delivery.bowler d = Some b
                                       ∧ Delivery.total_runs d = 0)
                                 (season_deliveries M D s))).
Proof.
  unfold top_mom, most_sixes, dot_bowlers, dot_balls.
  split; [|split]; intros k n Hin; apply head_subseteq in Hin;
    apply elem_of_value_counts_fmap in Hin as [Hpos ->]; split; try done.
  - by rewrite list_filter_filter.
  - by rewrite list_filter_filter.
Qed.

(** ** Runs per batter *)

Lemma group_rows_fmap {X} (key : X → option string) (val : X → Z)
    (rows : list X) (k : string) :
  group_rows k ((λ r, (key r, val r)) <$> rows)
  = val <$> filter (λ r, key r = Some k) rows.
Proof.
  unfold group_rows. induction rows as [|r rows IH]; [done|].
  rewrite fmap_cons, !filter_cons. simpl.
  destruct (decide (key r = Some k)); [rewrite fmap_cons; simpl|]; by rewrite IH.
Qed.

Lemma groupby_sum_keys (rows : list (option string * Z)) :
  (groupby_sum rows).*1 = sorted (unique (dropna rows.*1)).
Proof.
  unfold groupby_sum, sorted.
  induction (merge_sort String.le (unique (dropna rows.*1))) as [|k ks IH];
    [done|]. by rewrite !fmap_cons, IH.
Qed.

Lemma elem_of_groupby_sum (rows : list (option string * Z)) k v :
  (k, v) ∈ groupby_sum rows
  ↔ Some k ∈ rows.*1 ∧ v = int64_sum (group_rows k rows).
Proof.
  unfold groupby_sum. rewrite list_elem_of_fmap.
  setoid_rewrite merge_sort_Permutation.
  setoid_rewrite elem_of_unique. setoid_rewrite elem_of_dropna. split.
  - intros (k' & Heq & Hk'). by simplify_eq.
  - intros [Hk ->]. by exists k.
Qed.

Lemma runs_by_batter_keys M D s : (runs_by_batter M D s).*1 ≡ₚ batters M D s.
Proof.
  unfold runs_by_batter, batters.
  rewrite (fmap_Permutation fst _ _ (sort_values_desc_perm _)).
  rewrite groupby_sum_keys, <- list_fmap_compose. done.
Qed.

(** X8: the runs-per-batter series has exactly one entry for each batter of
    the batter list, carrying the int64 sum of [batsman_runs] over that
    batter's deliveries of the season; the two run charts show entries of
    that series, five and ten of them or as many as there are batters. *)
Theorem runs_by_batter_totals M D s :
  (∀ b r, (b, r) ∈ runs_by_batter M D s
          ↔ b ∈ batters M D s
            ∧ r = int64_sum
                    (Delivery.batsman_runs
                       <$> filter (λ d, Delivery.batter d = Some b)
                                  (season_deliveries M D s)))
  ∧ NoDup (runs_by_batter M D s).*1
  ∧ top_batsmen M D s ⊆ runs_by_batter M D s
  ∧ top_batsmen_leaders M D s ⊆ runs_by_batter M D s
  ∧ length (top_batsmen M D s) = (5 `min` length (batters M D s))%nat
  ∧ length (top_batsmen_leaders M D s) = (10 `min` length (batters M D s))%nat.
Proof.
  assert (Hlen : length (runs_by_batter M D s) = length (batters M D s)).
  { rewrite <- (Permutation_length (runs_by_batter_keys M D s)).
    by rewrite length_fmap. }
  split; [|split].
  - intros b r. unfold runs_by_batter, batters.
    rewrite sort_values_desc_perm, elem_of_groupby_sum, group_rows_fmap.
    rewrite sorted_perm, elem_of_unique, elem_of_dropna.
    by rewrite <- list_fmap_compose.
  - rewrite runs_by_batter_keys.
    apply (selection_list_spec (Delivery.batter <$> season_deliveries M D s)).
  - unfold top_batsmen, top_batsmen_leaders.
    split; [apply head_subseteq|]. split; [apply head_subseteq|].
    unfold head. by rewrite !length_take, Hlen.
Qed.

(** X9: the headline charts are prefixes of the leaderboards: the top five
    run scorers are the first five of the top ten, and the top five wicket
    takers the first five of the top ten. *)
Theorem headline_charts_prefix M D s :
  top_batsmen M D s = head 5 (top_batsmen_leaders M D s)
  ∧ top_bowlers M D s = head 5 (top_wickets M D s).
Proof.
  unfold top_batsmen, top_batsmen_leaders, top_bowlers, top_wickets.
  split; symmetry; apply head_head; lia.
Qed.

(** X10: each ranking holds the largest aggregates of the series it is cut
    from: a batter, bowler or player left out has no larger aggregate than
    any one shown. *)
Theorem top_n_hold_largest M D s :
  holds_largest ge_value (top_batsmen M D s) (runs_by_batter M D s)
  ∧ holds_largest ge_value (top_batsmen_leaders M D s) (runs_by_batter M D s)
  ∧ holds_largest ge_count (top_bowlers M D s)
      (value_counts (Delivery.bowler <$> wickets_df M D s))
  ∧ holds_largest ge_count (top_wickets M D s)
      (value_counts (Delivery.bowler <$> wickets_df M D s))
  ∧ holds_largest ge_count (top_mom M s)
      (value_counts (Match.player_of_match <$> season_matches M s))
  ∧ holds_largest ge_count (most_sixes M D s)
      (value_counts
         (Delivery.batter
            <$> filter (λ d, Delivery.batsman_runs d = 6)
                       (season_deliveries M D s)))
  ∧ holds_largest ge_count (dot_bowlers M D s)
      (value_counts (Delivery.bowler <$> dot_balls M D s)).
Proof.
  repeat match goal with |- _ ∧ _ => split end;
    apply head_holds_largest;
    first [ apply sort_values_desc_sorted | apply value_counts_sorted ].
Qed.

(** ** int64 sums, continued *)







(** ** Player vs player, continued *)

(** X12: when the matchup block shows metrics, at least one ball was bowled,
    the dismissals lie between 0 and the balls, the fours and sixes together
    do not exceed the balls, and the strike rate is defined. *)
Theorem player_vs_player_invariants M D s bat bowl r b d sr f x :
  player_vs_player M D s bat bowl = PvpMetrics r b d sr f x →
  1 ≤ b ∧ 0 ≤ d ≤ b ∧ Z.of_nat f + Z.of_nat x ≤ b ∧ is_Some sr.
Proof.
  unfold player_vs_player.
  destruct (decide (pvp_df M D s bat bowl = [])) as [|Hne]; [done|].
  intros Heq. injection Heq as <- <- <- <- <- <-.
  pose proof (length_filter
    (λ d, Delivery.player_dismissed d = Some bat) (pvp_df M D s bat bowl)).
  assert (H46 : (length (filter (λ d, Delivery.batsman_runs d = 4%Z)
                                (pvp_df M D s bat bowl))
                 + length (filter (λ d, Delivery.batsman_runs d = 6%Z)
                                  (pvp_df M D s bat bowl))
                 ≤ length (pvp_df M D s bat bowl))%nat).
  { apply length_filter_disjoint. intros d0 H4 H6. lia. }
  rewrite !boundaries_get by (rewrite !elem_of_cons; auto).
  assert (Hb : 1 ≤ balls M D s bat bowl).
  { unfold balls. destruct (pvp_df M D s bat bowl); [done|simpl; lia]. }
  split; [done|]. unfold dismissals, balls in *.
  split; [lia|]. split; [lia|].
  rewrite strike_rate_positive by lia. by eexists.
Qed.

Lemma player_vs_player_invariants_witness :
  player_vs_player scenario_matches scenario_deliveries "2020" "A" "B"
  = PvpMetrics 5 2 0 (Some (PyFloat 250%float)) 1 0
  ∧ 1 ≤ 2 ∧ Z.of_nat 1 + Z.of_nat 0 ≤ 2.
Proof.
  assert (Hv : player_vs_player scenario_matches scenario_deliveries "2020" "A" "B"
               = PvpMetrics 5 2 0 (Some (PyFloat 250%float)) 1 0)
    by (vm_compute; reflexivity).
  destruct (player_vs_player_invariants _ _ _ _ _ _ _ _ _ _ _ Hv)
    as (H1 & _ & H2 & _).
  split; [exact Hv|]. split; [exact H1 | exact H2].
Defined.

(** X13: the sixes a batter hit off the selected bowler are no more than
    that batter's count in the six-hitter series of the season. *)
Theorem matchup_sixes_le_season_sixes M D s bat bowl :
  (get (boundaries M D s bat bowl) 6%Z 0
   ≤ get (value_counts
            (Delivery.batter
               <$> filter (λ d, Delivery.batsman_runs d = 6%Z)
                          (season_deliveries M D s)))
         bat 0)%nat.
Proof.
  rewrite boundaries_get by (rewrite !elem_of_cons; auto).
  rewrite get_value_counts, length_filter_fmap.
  unfold pvp_df. rewrite !list_filter_filter.
  apply length_filter_impl. tauto.
Qed.

(** ** Head to head, continued *)

Lemma h2h_df_swap M A B : h2h_df M B A = h2h_df M A B.
Proof. unfold h2h_df. apply list_filter_iff. intros m. tauto. Qed.

Lemma length_filter_three_way {X} (P Q : X → Prop)
    `{!∀ x, Decision (P x)} `{!∀ x, Decision (Q x)} (l : list X) :
  (∀ x, P x → Q x → False) →
  length l
  = (length (filter P l) + length (filter Q l)
     + length (filter (λ x, ¬ P x ∧ ¬ Q x) l))%nat.
Proof.
  intros Hd. induction l as [|x l IH]; [done|].
  rewrite !filter_cons.
  destruct (decide (P x)) as [HP|HP], (decide (Q x)) as [HQ|HQ].
  - exfalso. eauto.
  - rewrite decide_False by tauto. simpl. lia.
  - rewrite decide_False by tauto. simpl. lia.
  - rewrite decide_True by tauto. simpl. lia.
Qed.

(** X14: exchanging Team A and Team B selects the same matches, exchanges
    the two win counts and leaves the ties unchanged. *)
Theorem head_to_head_swap M A B :
  h2h_df M B A = h2h_df M A B
  ∧ total M B A = total M A B
  ∧ t1_wins M B A = t2_wins M A B
  ∧ t2_wins M B A = t1_wins M A B
  ∧ ties M B A = ties M A B
  ∧ (∀ w1 w2 t, head_to_head M A B = H2HMetrics w1 w2 t →
                head_to_head M B A = H2HMetrics w2 w1 t).
Proof.
  assert (Ht : total M B A = total M A B)
    by (unfold total; by rewrite h2h_df_swap).
  assert (H1 : t1_wins M B A = t2_wins M A B)
    by (unfold t1_wins, t2_wins; by rewrite h2h_df_swap).
  assert (H2 : t2_wins M B A = t1_wins M A B)
    by (unfold t1_wins, t2_wins; by rewrite h2h_df_swap).
  assert (H3 : ties M B A = ties M A B) by (unfold ties; lia).
  split; [apply h2h_df_swap|]. repeat (split; [done|]).
  intros w1 w2 t. unfold head_to_head.
  destruct (decide (A ≠ B)) as [Hne|]; [|done].
  rewrite decide_True by done. intros Heq. injection Heq as <- <- <-.
  by rewrite H1, H2, H3.
Qed.

Lemma head_to_head_swap_witness :
  head_to_head rivalry_table "A" "B" = H2HMetrics 1 1 1
  ∧ head_to_head rivalry_table "B" "A" = H2HMetrics 1 1 1
  ∧ t1_wins rivalry_table "B" "A" = t2_wins rivalry_table "A" "B".
Proof.
  assert (Hv : head_to_head rivalry_table "A" "B" = H2HMetrics 1 1 1)
    by (vm_compute; reflexivity).
  destruct (head_to_head_swap rivalry_table "A" "B")
    as (_ & _ & H1 & _ & _ & Hswap).
  split; [exact Hv|]. split; [exact (Hswap _ _ _ Hv) | exact H1].
Defined.

(** X15: for two distinct teams the ties count exactly the selected matches
    whose winner is neither of the two teams, a missing winner included. *)
Theorem head_to_head_ties_rows M A B :
  A ≠ B →
  ties M A B
  = Z.of_nat (length (filter (λ m, Match.winner m ≠ Some A
                                   ∧ Match.winner m ≠ Some B)
                             (h2h_df M A B))).
Proof.
  intros Hne. unfold ties, total, t1_wins, t2_wins.
  rewrite (length_filter_three_way
             (λ m, Match.winner m = Some A) (λ m, Match.winner m = Some B)
             (h2h_df M A B)) by (intros m HA HB; congruence).
  lia.
Qed.

Lemma head_to_head_ties_rows_witness :
  "A" ≠ "B" ∧ ties rivalry_table "A" "B" = 1.
Proof.
  split; [done|].
  rewrite (head_to_head_ties_rows rivalry_table "A" "B") by done.
  vm_compute. reflexivity.
Defined.

(** ** The season blocks read the season's rows only *)

Lemma season_deliveries_congr M M' D s :
  season_matches M s = season_matches M' s →
  season_deliveries M D s = season_deliveries M' D s.
Proof. unfold season_deliveries, season_match_ids. by intros ->. Qed.

(** X16: two match tables with the same rows of the selected season give the
    same season blocks: the deliveries of the season, the selection lists of
    batters and bowlers, the overview, the rankings, the matchup and the
    thriller do not depend on the matches of other seasons. *)
Theorem season_blocks_depend_on_season_rows M M' D s bat bowl :
  season_matches M s = season_matches M' s →
  season_deliveries M D s = season_deliveries M' D s
  ∧ batters M D s = batters M' D s
  ∧ bowlers M D s = bowlers M' D s
  ∧ (metric_matches M s, metric_cities M s, metric_teams M s, metric_venues M s)
    = (metric_matches M' s, metric_cities M' s, metric_teams M' s,
       metric_venues M' s)
  ∧ winner_count M s = winner_count M' s
  ∧ top_batsmen M D s = top_batsmen M' D s
  ∧ top_bowlers M D s = top_bowlers M' D s
  ∧ top_mom M s = top_mom M' s
  ∧ player_vs_player M D s bat bowl = player_vs_player M' D s bat bowl
  ∧ thriller_of_the_season M s = thriller_of_the_season M' s
  ∧ top_batsmen_leaders M D s = top_batsmen_leaders M' D s
  ∧ most_sixes M D s = most_sixes M' D s
  ∧ top_wickets M D s = top_wickets M' D s
  ∧ dot_bowlers M D s = dot_bowlers M' D s.
Proof.
  intros Hsm. pose proof (season_deliveries_congr M M' D s Hsm) as Hsd.
  split; [done|].
  unfold batters, bowlers, metric_matches, metric_cities, metric_teams,
    metric_venues, winner_count, top_batsmen, top_batsmen_leaders,
    runs_by_batter, top_bowlers, top_wickets, wickets_df, top_mom,
    player_vs_player, runs, balls, dismissals, boundaries, pvp_df,
    thriller_of_the_season, thrillers, most_sixes, dot_bowlers, dot_balls.
  by rewrite Hsm, Hsd.
Qed.

Lemma season_blocks_depend_on_season_rows_witness :
  season_matches other_season_table "2020"
  = season_matches [match_row 3 "2020" "A" "C" (Some "C") "normal" (Some 7)] "2020"
  ∧ winner_count other_season_table "2020" = [("C", 1%nat)]
  ∧ thriller_of_the_season other_season_table "2020"
    = thriller_of_the_season
        [match_row 3 "2020" "A" "C" (Some "C") "normal" (Some 7)] "2020".
Proof.
  assert (Hsm : season_matches other_season_table "2020"
    = season_matches [match_row 3 "2020" "A" "C" (Some "C") "normal" (Some 7)]
                     "2020") by (vm_compute; reflexivity).
  destruct (season_blocks_depend_on_season_rows _ _ [] "2020" "A" "B" Hsm)
    as (_ & _ & _ & _ & Hw & _ & _ & _ & _ & Ht & _).
  split; [exact Hsm|]. split; [|exact Ht].
  rewrite Hw. vm_compute. reflexivity.
Defined.
